(** * Nearest-neighbour image classifier: a shallow embedding

    The development follows the two notebooks of the repository:

    - the streaming notebook ([get_random_subset], [classify_image],
      [get_average_accuracy], [accuracy_info]), which classifies one test
      vector at a time against the whole train selection;
    - the batched notebook ([classify_images]), which reshapes both
      selections, materialises the matrix of squared distances and reduces it
      along the train axis.

    Modelling conventions.

    - A two-dimensional numpy array is the list of its rows, a one-dimensional
      array a list.  Rectangularity (every row has the same length) is a
      property of numpy arrays that a list of lists does not enforce, so the
      theorems assume it where they need it.
    - Array elements are exact rationals ([Q]): rounding is not modelled.  The
      only non-finite values the code can produce come from numpy's division
      by zero (which warns and yields [nan] or [inf] instead of raising), and
      these are kept as separate constructors of [float64].
    - A Python exception aborts the computation: functions that can raise
      return a [result].  Code that also consumes numpy's global random
      generator threads a [RandomState] through ([Rand]).
    - Counts (sizes, numbers of iterations) are natural numbers. *)

From Stdlib Require Import QArith Lqa Lia.
From stdpp Require Import base list.

Local Open Scope Q_scope.

(** ** Exceptions *)

Inductive exn : Set :=
  | ValueError
  | IndexError
  | ZeroDivisionError.

Inductive result (A : Type) : Type :=
  | Ok (a : A)
  | Raise (e : exn).

Arguments Ok {A} a.
Arguments Raise {A} e.

#[global] Instance result_ret : MRet result := λ A, Ok.
#[global] Instance result_bind : MBind result := λ A B f m,
  match m with
  | Ok a => f a
  | Raise e => Raise e
  end.

(** ** numpy's global generator

    The state of the generator is the sequence of raw draws still to come and
    the position reached in it, so that the theorems below hold for every
    possible behaviour of the generator. *)

Record RandomState : Type := { draws : nat → nat; pos : nat }.

(** A computation that may consume random draws and may raise. *)
Definition Rand (A : Type) : Type := RandomState → result (A * RandomState).

#[global] Instance Rand_ret : MRet Rand := λ A a st, Ok (a, st).
#[global] Instance Rand_bind : MBind Rand := λ A B f m st,
  match m st with
  | Ok (a, st') => f a st'
  | Raise e => Raise e
  end.

(** A pure (possibly raising) step inside a [Rand] computation. *)
Definition lift {A} (r : result A) : Rand A := λ st,
  match r with
  | Ok a => Ok (a, st)
  | Raise e => Raise e
  end.

(** ** numpy primitives used by the notebooks *)
Module np.

(** [a[i]] on a one-dimensional array or on the rows of a matrix, for a
    non-negative index. *)
Definition getitem {A} (a : list A) (i : nat) : result A :=
  match a !! i with
  | Some x => Ok x
  | None => Raise IndexError
  end.

(** Element-wise binary operation on two one-dimensional operands under the
    broadcasting rule: equal lengths, or one operand of length one. *)
Definition broadcast {A B} (f : A → A → B) (a b : list A) : result (list B) :=
  if decide (length a = length b) then Ok (zip_with f a b)
  else match a, b with
       | [x], _ => Ok (f x <$> b)
       | _, [y] => Ok ((λ x, f x y) <$> a)
       | _, _ => Raise ValueError
       end.

Definition square (x : Q) : Q := x * x.

(** [a.sum()] of a one-dimensional array. *)
Definition sum (a : list Q) : Q := foldr Qplus 0 a.

(** [(a == b).sum()]-style count of the [True] entries. *)
Definition count_true (a : list bool) : Z := Z.of_nat (length (filter (λ b, b = true) a)).

Definition Qltb (x y : Q) : bool := (Qnum x * QDen y <? Qnum y * QDen x)%Z.

(** The scan of [argmin]: the running minimum [mp] and its index are
    replaced only by a strictly smaller element. *)
Fixpoint argmin_loop (mp : Q) (min_ind i : nat) (ip : list Q) : nat :=
  match ip with
  | [] => min_ind
  | x :: ip' =>
      if Qltb x mp then argmin_loop x i (S i) ip'
      else argmin_loop mp min_ind (S i) ip'
  end.

(** [a.argmin()] of a one-dimensional array; an empty array raises
    ("attempt to get argmin of an empty sequence"). *)
Definition argmin (a : list Q) : result nat :=
  match a with
  | [] => Raise ValueError
  | x :: a' => Ok (argmin_loop x 0 1 a')
  end.

Definition column (j : nat) (a : list (list Q)) : list Q :=
  (λ row, nth j row 0) <$> a.

(** [a.argmin(axis = 0)] of a matrix with [ncols] columns: one index per
    column; a matrix without rows raises whatever [ncols] is. *)
Definition argmin_axis0 (ncols : nat) (a : list (list Q)) : result (list nat) :=
  match a with
  | [] => Raise ValueError
  | _ :: _ => mapM (λ j, argmin (column j a)) (seq 0 ncols)
  end.

(** [float.astype(int)]: truncation towards zero. *)
Definition astype_int (x : Q) : Z := Z.quot (Qnum x) (Z.pos (Qden x)).

Fixpoint chunks (n len : nat) (flat : list Q) : list (list Q) :=
  match n with
  | O => []
  | S n' => take len flat :: chunks n' len (drop len flat)
  end.

(** [a.reshape(n, len)] in row-major order; the total size must be kept. *)
Definition reshape (a : list (list Q)) (n len : nat) : result (list (list Q)) :=
  let flat := concat a in
  if decide (length flat = (n * len)%nat) then Ok (chunks n len flat)
  else Raise ValueError.

(** [x[i], x[j] = x[j], x[i]] *)
Definition swap (x : list nat) (i j : nat) : list nat :=
  match x !! i, x !! j with
  | Some a, Some b => <[j := a]> (<[i := b]> x)
  | _, _ => x
  end.

(** A uniform draw from [0..max]. *)
Definition random_interval (max : nat) (st : RandomState) : nat * RandomState :=
  (draws st (pos st) `mod` S max, {| draws := draws st; pos := S (pos st) |}).

(** [shuffle]: for [i] from [n - 1] down to [1], exchange [x[i]] with
    [x[j]] for a random [j <= i]. *)
Fixpoint shuffle (i : nat) (x : list nat) (st : RandomState) : list nat * RandomState :=
  match i with
  | O => (x, st)
  | S i' => let '(j, st') := random_interval i st in shuffle i' (swap x i j) st'
  end.

(** [np.random.permutation(n)] *)
Definition permutation (n : nat) (st : RandomState) : list nat * RandomState :=
  shuffle (n - 1) (seq 0 n) st.

(** [np.random.choice(a, size, replace = False)]: the first [size] entries
    of a random permutation of [range(a)]; a sample larger than the
    population raises ("Cannot take a larger sample than population when
    'replace=False'").  An empty sample is served, also from an empty
    population, as numpy does since it accepts [a = 0] when no sample is
    taken. *)
Definition choice (a size : nat) : Rand (list nat) := λ st,
  if decide (a < size)%nat then Raise ValueError
  else let '(idx, st') := permutation a st in Ok (take size idx, st').

(** *** Floating-point results of divisions *)

Inductive float64 : Type :=
  | Finite (q : Q)
  | Inf (negative : bool)
  | NaN.

(** [a / b] for a numpy integer [a]: division by zero does not raise. *)
Definition true_divide (a : Z) (b : nat) : float64 :=
  match b with
  | O => if decide (a = 0%Z) then NaN else Inf (bool_decide (a < 0)%Z)
  | S _ => Finite (inject_Z a / inject_Z (Z.of_nat b))
  end.

Definition add (x y : float64) : float64 :=
  match x, y with
  | Finite a, Finite b => Finite (a + b)
  | NaN, _ | _, NaN => NaN
  | Inf s, Inf s' => if Bool.eqb s s' then Inf s else NaN
  | Inf s, Finite _ | Finite _, Inf s => Inf s
  end.

(** [x / n] for a numpy float [x] and a count [n]. *)
Definition divide (x : float64) (n : nat) : float64 :=
  match x, n with
  | Finite a, O => if Qeq_bool a 0 then NaN else Inf (Qltb a 0)
  | Finite a, S _ => Finite (a / inject_Z (Z.of_nat n))
  | Inf s, _ => Inf s
  | NaN, _ => NaN
  end.

End np.

(** ** Python numbers in the accumulator of [get_average_accuracy]

    [total_accuracy] starts as the Python integer [0] and becomes a numpy
    float at the first [+=]. *)

Inductive pynum : Type :=
  | PyInt (z : Z)
  | NpFloat (x : np.float64).

Definition py_iadd (total : pynum) (x : np.float64) : pynum :=
  match total with
  | PyInt z => NpFloat (np.add (np.Finite (inject_Z z)) x)
  | NpFloat t => NpFloat (np.add t x)
  end.

(** [total / n]: Python's own integer division raises on a zero divisor,
    numpy's does not. *)
Definition py_truediv (total : pynum) (n : nat) : result np.float64 :=
  match total with
  | PyInt z =>
      if decide (n = O) then Raise ZeroDivisionError
      else Ok (np.Finite (inject_Z z / inject_Z (Z.of_nat n)))
  | NpFloat t => Ok (np.divide t n)
  end.

(** [for i in range(n): acc = body(acc)] *)
Fixpoint for_range {A} (n : nat) (body : A → Rand A) (acc : A) : Rand A :=
  match n with
  | O => mret acc
  | S n' => acc' ← body acc; for_range n' body acc'
  end.

(** ** The sampler (both notebooks) *)

Definition get_random_subset (data : list (list Q)) (new_size : nat)
    : Rand (list Z * list (list Q)) :=
  let old_size := length data in
  indexes ← np.choice old_size new_size;
  column0 ← lift (mapM (λ i, row ← np.getitem data i; np.getitem row 0) indexes);
  let labels := np.astype_int <$> column0 in
  images ← lift (mapM (λ i, row ← np.getitem data i; Ok (drop 1 row)) indexes);
  mret (labels, images).

(** ** The streaming notebook *)

(** [test_img - train_img] with [test_img] one-dimensional: the query is
    broadcast against every row of the train selection.  A train selection
    without rows has no row to disagree with: numpy would still compare the
    query with its row length, but [classify_image] then raises the same
    [ValueError] from [argmin] on the empty array of distances. *)
Definition subtract_rows (test_img : list Q) (train_img : list (list Q))
    : result (list (list Q)) :=
  mapM (np.broadcast Qminus test_img) train_img.

(** [DM = np.square(test_img - train_img).sum(axis = 1)] *)
Definition distances (test_img : list Q) (train_img : list (list Q)) : result (list Q) :=
  diff ← subtract_rows test_img train_img;
  Ok (np.sum <$> (fmap (M := list) np.square <$> (diff : list (list Q)))).

Definition classify_image (test_img : list Q) (train_img : list (list Q))
    (train_labels : list Z) : result Z :=
  DM ← distances test_img train_img;
  index ← np.argmin DM;
  np.getitem train_labels index.

(** [[classify_image(test, train_img, train_labels) for test in test_img]] *)
Definition predicted_results (test_img train_img : list (list Q)) (train_labels : list Z)
    : result (list Z) :=
  mapM (λ test, classify_image test train_img train_labels) test_img.

(** [(predicted_results == test_labels).sum()]: the comparison is
    element-wise under the broadcasting rule, and operands that cannot be
    broadcast raise. *)
Definition success_count (predicted test_labels : list Z) : result Z :=
  hits ← np.broadcast Z.eqb predicted test_labels;
  Ok (np.count_true hits).

(** One pass of the loop of [get_average_accuracy]; [test_labels] is the
    notebook's global of that name. *)
Definition iteration (test_img : list (list Q)) (test_labels : list Z)
    (train_data : list (list Q)) (train_subset_size : nat) (total_accuracy : pynum)
    : Rand pynum :=
  '(train_labels, train_img) ← get_random_subset train_data train_subset_size;
  predicted ← lift (predicted_results test_img train_img train_labels);
  hits ← lift (success_count predicted test_labels);
  mret (py_iadd total_accuracy (np.true_divide hits (length test_labels))).

Definition get_average_accuracy (test_img : list (list Q)) (test_labels : list Z)
    (train_data : list (list Q)) (train_subset_size iterations_count : nat)
    : Rand np.float64 :=
  total_accuracy ←
    for_range iterations_count
      (iteration test_img test_labels train_data train_subset_size) (PyInt 0);
  lift (py_truediv total_accuracy iterations_count).

Definition accuracy_info (test_img : list (list Q)) (test_labels : list Z)
    (train_data : list (list Q)) (size_of_subset_v count_of_iters_v : list nat)
    : Rand (list np.float64) :=
  mapM (λ '(size, iters), get_average_accuracy test_img test_labels train_data size iters)
       (zip size_of_subset_v count_of_iters_v).

(** ** The batched notebook *)

(** [DM = np.square(Te - Tr).sum(axis = 2)] for [Tr] of shape
    [(N_train, 1, IMAGE_LENGTH)] and [Te] of shape [(1, N_test, IMAGE_LENGTH)]:
    the unit axes only direct the broadcast of [Te - Tr] to shape
    [(N_train, N_test, IMAGE_LENGTH)] and are left implicit, so that
    [DM[i][j]] is the sum over [k] of [(Te[j][k] - Tr[i][k])^2]. *)
Definition distance_matrix (Te Tr : list (list Q)) : list (list Q) :=
  (λ r, (λ t, np.sum (np.square <$> zip_with Qminus t r)) <$> Te) <$> Tr.

(** [IMAGE_LENGTH] is the notebook's global. *)
Definition classify_images (IMAGE_LENGTH : nat) (train_img : list (list Q))
    (train_labels : list Z) (test_img : list (list Q)) (N_train N_test : nat)
    : result (list Z) :=
  Tr ← np.reshape train_img N_train IMAGE_LENGTH;
  Te ← np.reshape test_img N_test IMAGE_LENGTH;
  let DM := distance_matrix Te Tr in
  indexes ← np.argmin_axis0 N_test DM;
  mapM (np.getitem train_labels) indexes.

(** ** The test cells of the two notebooks *)

Module streaming.

(** The test cell of the streaming notebook: every test vector is
    classified, the predictions are compared with [test_labels], and the
    count (a numpy integer) is divided by the notebook's global
    [test_size]. *)
Definition accuracy (test_img : list (list Q)) (test_labels : list Z)
    (train_img : list (list Q)) (train_labels : list Z) (test_size : nat)
    : result np.float64 :=
  predicted ← predicted_results test_img train_img train_labels;
  hits ← success_count predicted test_labels;
  Ok (np.true_divide hits test_size).

End streaming.

Module batched.

(** The loop of the test cell of the batched notebook, over the pairs of
    [zip(test_labels, test_img)]: each test vector, a one-dimensional array,
    goes through [classify_images] as a batch of one, and [success_count], a
    Python integer, counts the answers equal to the label. *)
Fixpoint success_count (IMAGE_LENGTH : nat) (train_img : list (list Q))
    (train_labels : list Z) (train_N : nat) (pairs : list (Z * list Q))
    (count : Z) : result Z :=
  match pairs with
  | [] => Ok count
  | (label, test) :: pairs' =>
      res ← classify_images IMAGE_LENGTH train_img train_labels [test] train_N 1;
      res0 ← np.getitem res 0;
      success_count IMAGE_LENGTH train_img train_labels train_N pairs'
        (if decide (res0 = label) then (count + 1)%Z else count)
  end.

(** [accuracy = success_count / test_N], a division of Python integers. *)
Definition accuracy (IMAGE_LENGTH : nat) (train_img : list (list Q))
    (train_labels : list Z) (test_img : list (list Q)) (test_labels : list Z)
    (train_N test_N : nat) : result np.float64 :=
  count ← success_count IMAGE_LENGTH train_img train_labels train_N
             (zip test_labels test_img) 0%Z;
  py_truediv (PyInt count) test_N.

End batched.

(** ** Notions of the specification *)

(** The squared Euclidean distance of the specification: the sum over [j] of
    [(q_j - r_j)^2]. *)
Definition squared_distance (q r : list Q) : Q :=
  foldr (λ '(qj, rj) acc, (qj - rj) ^ 2 + acc) 0 (zip q r).

(** [r] is the lowest index at which the array [a] takes its minimum. *)
Definition first_min (a : list Q) (r : nat) : Prop :=
  ∃ m, a !! r = Some m
       ∧ (∀ k x, a !! k = Some x → m <= x)
       ∧ (∀ k x, a !! k = Some x → (k < r)%nat → m < x).

(** The index the scan of [argmin] settles on for query [q]. *)
Definition nearest (train_img : list (list Q)) (q : list Q) : nat :=
  match squared_distance q <$> train_img with
  | [] => O
  | x :: a => np.argmin_loop x 0 1 a
  end.

(** A query that numpy cannot broadcast against rows of length [L]. *)
Definition incompatible (L : nat) (q : list Q) : Prop :=
  length q ≠ L ∧ length q ≠ 1%nat ∧ L ≠ 1%nat.

(** The accuracy of the specification: the number of predictions that
    match the true label, divided by the number of queries. *)
Definition matching (predicted test_labels : list Z) : nat :=
  length (filter (λ pt, pt.1 = pt.2) (zip predicted test_labels)).

Definition accuracy (predicted test_labels : list Z) : Q :=
  inject_Z (Z.of_nat (matching predicted test_labels))
  / inject_Z (Z.of_nat (length test_labels)).

(** The arithmetic mean of a list of accuracies. *)
Definition mean (l : list Q) : Q :=
  foldr Qplus 0 l / inject_Z (Z.of_nat (length l)).

(** [a] is the accuracy of one repetition: a reference subset of the given
    size is drawn from the training pool, the fixed queries are classified
    against it, and the predictions are scored against the true labels. *)
Definition repetition_accuracy (test_img : list (list Q)) (test_labels : list Z)
    (train_data : list (list Q)) (size : nat) (a : Q) : Prop :=
  ∃ st st' train_labels train_img predicted,
    get_random_subset train_data size st = Ok ((train_labels, train_img), st')
    ∧ length train_img = size
    ∧ predicted_results test_img train_img train_labels = Ok predicted
    ∧ length predicted = length test_img
    ∧ a == accuracy predicted test_labels.

(** The accumulator [total] holds the finite value [q]. *)
Definition represents (total : pynum) (q : Q) : Prop :=
  match total with
  | PyInt z => inject_Z z == q
  | NpFloat (np.Finite t) => t == q
  | NpFloat _ => False
  end.

(** The computation [r] does not end in [ZeroDivisionError]. *)
Definition no_zero_division {A} (r : result A) : Prop := r ≠ Raise ZeroDivisionError.

(** The end-to-end scenario of the specification: four reference vectors
    of length two, and the queries [(0, 0.4)] and [(5, 5.4)]. *)
Definition scenario_labels : list Z := [0; 0; 1; 1]%Z.
Definition scenario_vectors : list (list Q) := [[0; 0]; [0; 1]; [5; 5]; [5; 6]].
Definition scenario_query1 : list Q := [0; 4 # 10].
Definition scenario_query2 : list Q := [5; 54 # 10].

(** A generator used in the examples: draw number [n] is [7 n + 3]. *)
Definition example_state : RandomState := {| draws := λ n, (7 * n + 3)%nat; pos := 0 |}.

(** Entry of a schedule that [get_average_accuracy] can serve from a
    training pool of [pool] rows. *)
Definition valid_entry (pool : nat) (entry : nat * nat) : Prop :=
  (0 < entry.1 ≤ pool)%nat ∧ (1 ≤ entry.2)%nat.

(** The row of a dataset as the sampler splits it: the label of column 0
    and the vector of the remaining columns. *)
Definition split_row (row : list Q) : Z * list Q :=
  (np.astype_int (hd 0 row), drop 1 row).

(** * Lemmas *)

(** ** [mapM] in the exception monad *)
Section mapM_result.
Context {A B : Type} (f : A → result B).

Lemma mapM_cons x l :
  mapM f (x :: l) = y ← f x; k ← mapM f l; Ok (y :: k).
Proof. reflexivity. Qed.

Lemma mapM_Ok_fmap (h : A → B) l :
  (∀ x, x ∈ l → f x = Ok (h x)) → mapM f l = Ok (h <$> l).
Proof.
  induction l as [|x l IH]; intros Hf; [done|].
  rewrite mapM_cons, Hf by left. cbn.
  rewrite IH; [done|]. intros y Hy. apply Hf. by right.
Qed.

Lemma mapM_Ok_Forall2 l k :
  mapM f l = Ok k ↔ Forall2 (λ x y, f x = Ok y) l k.
Proof.
  revert k. induction l as [|x l IH]; intros k.
  - split; [intros [= <-]; constructor | by inversion 1].
  - rewrite mapM_cons. split.
    + destruct (f x) as [y|] eqn:Hx; [|done]. cbn.
      destruct (mapM f l) as [k'|] eqn:Hl; [|done]. cbn.
      intros [= <-]. constructor; [done|]. by apply IH.
    + inversion 1 as [|? y ? k' Hx Hl]; subst.
      apply IH in Hl. by rewrite Hx, Hl.
Qed.

Lemma mapM_Raise l e :
  mapM f l = Raise e → ∃ x, x ∈ l ∧ f x = Raise e.
Proof.
  induction l as [|x l IH]; [done|]. rewrite mapM_cons.
  destruct (f x) as [y|e'] eqn:Hx; cbn.
  - destruct (mapM f l) as [k'|e'] eqn:Hl; cbn; [done|].
    intros [= ->]. destruct IH as (z & ? & ?); [done|].
    exists z. split; [by right|done].
  - intros [= ->]. exists x. split; [by left|done].
Qed.
End mapM_result.

(** ** The scan of [argmin] *)

Lemma Qltb_lt x y : np.Qltb x y = true ↔ x < y.
Proof. unfold np.Qltb, Qlt. apply Z.ltb_lt. Qed.

Lemma Qltb_ge x y : np.Qltb x y = false ↔ y <= x.
Proof. unfold np.Qltb, Qle. apply Z.ltb_ge. Qed.

Lemma argmin_loop_first_min ip : ∀ pre mp min_ind,
  pre !! min_ind = Some mp →
  (∀ k x, pre !! k = Some x → mp <= x) →
  (∀ k x, pre !! k = Some x → (k < min_ind)%nat → mp < x) →
  first_min (pre ++ ip) (np.argmin_loop mp min_ind (length pre) ip).
Proof.
  induction ip as [|x ip IH]; intros pre mp min_ind Hmp Hle Hlt; cbn.
  - rewrite app_nil_r. by exists mp.
  - replace (pre ++ x :: ip) with ((pre ++ [x]) ++ ip) by by rewrite <- app_assoc.
    replace (S (length pre)) with (length (pre ++ [x])) by (rewrite length_app; cbn; lia).
    destruct (np.Qltb x mp) eqn:Hx.
    + apply Qltb_lt in Hx. apply IH.
      * by rewrite lookup_app_r, Nat.sub_diag.
      * intros k y Hk. apply lookup_app_Some in Hk as [Hk|[_ Hk]].
        -- apply Hle in Hk. lra.
        -- apply list_lookup_singleton_Some in Hk as [_ <-]. lra.
      * intros k y Hk Hlen. rewrite lookup_app_l in Hk by done.
        apply Hle in Hk. lra.
    + apply Qltb_ge in Hx. apply IH.
      * rewrite lookup_app_l; [done|]. by eapply lookup_lt_Some.
      * intros k y Hk. apply lookup_app_Some in Hk as [Hk|[_ Hk]].
        -- by eapply Hle.
        -- by apply list_lookup_singleton_Some in Hk as [_ <-].
      * intros k y Hk Hlen. apply lookup_lt_Some in Hmp.
        rewrite lookup_app_l in Hk by lia. by eapply Hlt.
Qed.

Lemma argmin_first_min a : a ≠ [] → ∃ r, np.argmin a = Ok r ∧ first_min a r.
Proof.
  destruct a as [|x a]; [done|]. intros _. eexists. split; [done|].
  apply (argmin_loop_first_min a [x] x 0%nat); [done|..].
  - intros [|k] y [= <-]. lra.
  - intros; lia.
Qed.


(** ** Distances, reshaping and the two strategies *)

Lemma sum_square_sub q r :
  np.sum (np.square <$> zip_with Qminus q r) = squared_distance q r.
Proof.
  revert r. induction q as [|x q IH]; intros [|y r]; try reflexivity.
  unfold squared_distance, np.sum in *. cbn. by rewrite IH.
Qed.

Lemma broadcast_same_length {A B} (f : A → A → B) a b :
  length a = length b → np.broadcast f a b = Ok (zip_with f a b).
Proof. intros H. unfold np.broadcast. by rewrite decide_True. Qed.

Lemma distances_rect L q train_img :
  length q = L → Forall (λ r, length r = L) train_img →
  distances q train_img = Ok (squared_distance q <$> train_img).
Proof.
  intros Hq Hrect. unfold distances, subtract_rows.
  rewrite (mapM_Ok_fmap _ (zip_with Qminus q)).
  - cbn. f_equal. rewrite <- !list_fmap_compose. apply list_fmap_ext.
    intros i r _. cbn. apply sum_square_sub.
  - intros r Hr. apply broadcast_same_length.
    rewrite Forall_forall in Hrect. rewrite (Hrect r Hr). done.
Qed.

Lemma length_concat_rect L (a : list (list Q)) :
  Forall (λ r, length r = L) a → length (concat a) = (length a * L)%nat.
Proof.
  induction 1 as [|r a Hr _ IH]; [done|]. cbn. rewrite length_app, IH. lia.
Qed.

Lemma chunks_concat_rect L (a : list (list Q)) :
  Forall (λ r, length r = L) a → np.chunks (length a) L (concat a) = a.
Proof.
  induction 1 as [|r a Hr _ IH]; [done|]. cbn. subst L.
  by rewrite take_app_length, drop_app_length, IH.
Qed.

Lemma reshape_rect L (a : list (list Q)) :
  Forall (λ r, length r = L) a → np.reshape a (length a) L = Ok a.
Proof.
  intros Hrect. unfold np.reshape.
  rewrite decide_True by by apply length_concat_rect.
  by rewrite chunks_concat_rect.
Qed.

Lemma argmin_nearest train_img q :
  train_img ≠ [] → np.argmin (squared_distance q <$> train_img) = Ok (nearest train_img q).
Proof. unfold nearest. by destruct train_img. Qed.

Lemma fmap_seq_nth {A B} (h : A → B) (d : A) (l : list A) :
  (λ j, h (nth j l d)) <$> seq 0 (length l) = h <$> l.
Proof.
  apply list_eq. intros i. rewrite !list_lookup_fmap.
  destruct (l !! i) as [x|] eqn:Hi; cbn.
  - rewrite lookup_seq_lt by by eapply lookup_lt_Some. cbn.
    by rewrite (nth_lookup_Some _ _ _ _ Hi).
  - apply lookup_ge_None in Hi. by rewrite lookup_seq_ge.
Qed.

Lemma argmin_axis0_rows n a :
  a ≠ [] → np.argmin_axis0 n a = mapM (λ j, np.argmin (np.column j a)) (seq 0 n).
Proof. by destruct a. Qed.

Lemma column_distance_matrix train_img test_img j t :
  test_img !! j = Some t →
  np.column j (distance_matrix test_img train_img) = squared_distance t <$> train_img.
Proof.
  intros Hj. unfold np.column, distance_matrix. rewrite <- list_fmap_compose.
  apply list_fmap_ext. intros i r _. cbn.
  rewrite <- sum_square_sub. apply nth_lookup_Some.
  by rewrite list_lookup_fmap, Hj.
Qed.

Lemma classify_images_rect L train_img train_labels test_img :
  Forall (λ r, length r = L) train_img →
  Forall (λ q, length q = L) test_img →
  train_img ≠ [] →
  classify_images L train_img train_labels test_img (length train_img) (length test_img)
  = mapM (np.getitem train_labels) (nearest train_img <$> test_img).
Proof.
  intros Htr Hte Hne. unfold classify_images.
  rewrite !reshape_rect by done. cbn.
  rewrite argmin_axis0_rows by by destruct train_img.
  rewrite (mapM_Ok_fmap _ (λ j, nearest train_img (nth j test_img []))).
  - cbn. by rewrite fmap_seq_nth.
  - intros j Hj. apply elem_of_seq in Hj as [_ Hj]. cbn in Hj.
    destruct (lookup_lt_is_Some_2 test_img j Hj) as [t Ht].
    rewrite (column_distance_matrix _ _ _ _ Ht), (nth_lookup_Some _ _ _ _ Ht).
    by apply argmin_nearest.
Qed.

Lemma predicted_results_rect L train_img train_labels test_img :
  Forall (λ r, length r = L) train_img →
  Forall (λ q, length q = L) test_img →
  train_img ≠ [] →
  predicted_results test_img train_img train_labels
  = mapM (np.getitem train_labels) (nearest train_img <$> test_img).
Proof.
  intros Htr Hte Hne. unfold predicted_results, classify_image.
  rewrite Forall_forall in Hte.
  induction test_img as [|q test_img IH]; [done|].
  rewrite fmap_cons, !mapM_cons.
  rewrite (distances_rect L) by (done || apply Hte; by left). cbn.
  rewrite argmin_nearest by done. cbn.
  rewrite IH; [done|]. intros x Hx. apply Hte. by right.
Qed.

Lemma predicted_results_empty_reference q test_img train_labels :
  predicted_results (q :: test_img) [] train_labels = Raise ValueError.
Proof. reflexivity. Qed.

Lemma nearest_first_min train_img q :
  train_img ≠ [] → first_min (squared_distance q <$> train_img) (nearest train_img q).
Proof.
  intros Hne.
  destruct (argmin_first_min (squared_distance q <$> train_img)) as (r & Hr & Hmin).
  - by destruct train_img.
  - rewrite argmin_nearest in Hr by done. by injection Hr as ->.
Qed.

Lemma nearest_lt train_img q :
  train_img ≠ [] → (nearest train_img q < length train_img)%nat.
Proof.
  intros Hne. destruct (nearest_first_min _ q Hne) as (m & Hm & _).
  apply lookup_lt_Some in Hm. by rewrite length_fmap in Hm.
Qed.

Lemma gather_labels (train_labels : list Z) train_img test_img :
  train_img ≠ [] → length train_labels = length train_img →
  ∃ predictions,
    mapM (np.getitem train_labels) (nearest train_img <$> test_img) = Ok predictions
    ∧ length predictions = length test_img
    ∧ ∀ j q, test_img !! j = Some q →
        predictions !! j = train_labels !! nearest train_img q.
Proof.
  intros Hne Hlen.
  exists ((λ q, default 0%Z (train_labels !! nearest train_img q)) <$> test_img).
  split; [|split].
  - change ((λ q, default 0%Z (train_labels !! nearest train_img q)) <$> test_img)
      with (((λ i, default 0%Z (train_labels !! i)) ∘ nearest train_img) <$> test_img).
    rewrite list_fmap_compose. apply mapM_Ok_fmap. intros i Hi.
    apply list_elem_of_fmap in Hi as (q & -> & _). unfold np.getitem.
    destruct (lookup_lt_is_Some_2 train_labels (nearest train_img q)) as [z ->]; [|done].
    rewrite Hlen. by apply nearest_lt.
  - by rewrite length_fmap.
  - intros j q Hj. rewrite list_lookup_fmap, Hj. cbn.
    destruct (lookup_lt_is_Some_2 train_labels (nearest train_img q)) as [z ->]; [|done].
    rewrite Hlen. by apply nearest_lt.
Qed.

(** A reference set given as (label, vector) pairs is handed to the code as
    the array of its vectors and the array of its labels. *)
Lemma reference_rect L (reference : list (Z * list Q)) :
  Forall (λ p, length p.2 = L) reference → Forall (λ r, length r = L) reference.*2.
Proof. intros H. by apply Forall_fmap. Qed.

Lemma reference_nonempty (reference : list (Z * list Q)) :
  reference ≠ [] → reference.*2 ≠ [].
Proof. by destruct reference. Qed.


(** * The distance classifier *)

(** C1, as the code has it: on a reference set of vectors of length [L] and
    queries of the same length, the batched strategy and the streaming
    strategy return the same result (the same labels, or the same exception),
    provided the reference set and the query sequence are not both empty. *)
Theorem batched_streaming_agree L train_img train_labels test_img :
  Forall (λ r, length r = L) train_img →
  Forall (λ q, length q = L) test_img →
  train_img ≠ [] ∨ test_img ≠ [] →
  classify_images L train_img train_labels test_img (length train_img) (length test_img)
  = predicted_results test_img train_img train_labels.
Proof.
  intros Htr Hte Hne. destruct train_img as [|r train_img].
  - destruct Hne as [|Hne]; [done|]. destruct test_img as [|q test_img]; [done|].
    rewrite predicted_results_empty_reference. unfold classify_images.
    by rewrite (reshape_rect L [] Htr), (reshape_rect L _ Hte).
  - by rewrite (classify_images_rect L), (predicted_results_rect L).
Qed.

Lemma batched_streaming_agree_witness :
  classify_images 2 [[0; 0]; [3; 4]] [7; 8]%Z [[1; 1]; [3; 3]] 2 2
  = predicted_results [[1; 1]; [3; 3]] [[0; 0]; [3; 4]] [7; 8]%Z.
Proof.
  apply (batched_streaming_agree 2 [[0; 0]; [3; 4]] [7; 8]%Z [[1; 1]; [3; 3]]).
  - repeat constructor.
  - repeat constructor.
  - by left.
Defined.

(** C1 as stated fails when there is neither a reference vector nor a query:
    the streaming comprehension returns the empty list, while the batched
    [argmin] along the empty train axis raises. *)
Lemma batched_streaming_differ_on_empty :
  predicted_results [] [] [] = Ok []
  ∧ classify_images 2 [] [] [] 0 0 = Raise ValueError
  ∧ classify_images 2 [] [] [] 0 0 ≠ predicted_results [] [] [].
Proof. repeat split. discriminate. Qed.






Lemma broadcast_incompatible {B} (f : Q → Q → B) a b :
  incompatible (length b) a → np.broadcast f a b = Raise ValueError.
Proof.
  intros (H1 & H2 & H3). unfold np.broadcast. rewrite decide_False by done.
  by destruct a as [|x [|x' a]], b as [|y [|y' b]].
Qed.

Lemma broadcast_compatible {B} (f : Q → Q → B) a b :
  ¬ incompatible (length b) a → ∃ c, np.broadcast f a b = Ok c.
Proof.
  intros Hc. unfold np.broadcast, incompatible in *.
  case_decide as Hlen; [by eexists|].
  destruct a as [|x [|x' a]], b as [|y [|y' b]]; cbn in *;
    solve [exfalso; lia | by eexists].
Qed.

Lemma argmin_lt a r : np.argmin a = Ok r → (r < length a)%nat.
Proof.
  intros Hr. destruct (argmin_first_min a) as (r' & Hr' & m & Hm & _).
  - by intros ->.
  - rewrite Hr in Hr'. injection Hr' as <-. by eapply lookup_lt_Some.
Qed.

Lemma classify_image_compatible L q (reference : list (Z * list Q)) :
  Forall (λ p, length p.2 = L) reference → reference ≠ [] → ¬ incompatible L q →
  ∃ label, classify_image q reference.*2 reference.*1 = Ok label.
Proof.
  intros Href Hne Hc. unfold classify_image, distances, subtract_rows.
  destruct (mapM (np.broadcast Qminus q) reference.*2) as [diff|e] eqn:Hdiff.
  - apply mapM_Ok_Forall2, Forall2_length in Hdiff. cbn.
    destruct (np.argmin (np.sum <$> (fmap np.square <$> diff))) as [index|e] eqn:Hindex.
    + cbn. apply argmin_lt in Hindex. rewrite !length_fmap in Hindex.
      unfold np.getitem.
      destruct (lookup_lt_is_Some_2 reference.*1 index) as [label ->]; [|by eexists].
      rewrite length_fmap in Hdiff. rewrite length_fmap. lia.
    + destruct diff; [|done]. rewrite length_fmap in Hdiff. by destruct reference.
  - apply mapM_Raise in Hdiff as (r & Hr & Hraise).
    apply list_elem_of_fmap in Hr as ([label r'] & -> & Hr).
    rewrite Forall_forall in Href. specialize (Href _ Hr). cbn in *. subst L.
    destruct (broadcast_compatible Qminus q r' Hc) as [c Hc']. congruence.
Qed.

(** C7, as the code has it.  For one query (the streaming strategy),
    [classify_image] raises exactly when the reference set is empty or the
    query cannot be broadcast against the reference vectors: its length
    differs from [L] and neither length is one.  For a batch of queries of
    common length [Lq], [classify_images] raises exactly when the reference
    set is empty or there is a query and [Lq] differs from [L].  The
    exception is numpy's [ValueError] in every case. *)
Theorem classify_raises L (reference : list (Z * list Q)) :
  Forall (λ p, length p.2 = L) reference →
  (∀ q, reference = [] ∨ incompatible L q →
        classify_image q reference.*2 reference.*1 = Raise ValueError)
  ∧ (∀ q, ¬ (reference = [] ∨ incompatible L q) →
          ∃ label, classify_image q reference.*2 reference.*1 = Ok label)
  ∧ (∀ Lq queries, Forall (λ q, length q = Lq) queries →
       (reference = [] ∨ (queries ≠ [] ∧ Lq ≠ L) →
        classify_images L reference.*2 reference.*1 queries
          (length reference) (length queries) = Raise ValueError)
       ∧ (¬ (reference = [] ∨ (queries ≠ [] ∧ Lq ≠ L)) →
          ∃ predictions,
            classify_images L reference.*2 reference.*1 queries
              (length reference) (length queries) = Ok predictions)).
Proof.
  intros Href. pose proof (reference_rect _ _ Href) as Hrect. split; [|split].
  - intros q [->|Hinc]; [done|].
    destruct reference as [|[label r] reference]; [done|].
    apply Forall_cons in Href as [Hr _]. cbn in Hr. subst L.
    unfold classify_image, distances, subtract_rows.
    rewrite !fmap_cons, mapM_cons. cbn. by rewrite broadcast_incompatible.
  - intros q Hc. apply (classify_image_compatible L); [done|tauto..].
  - intros Lq queries Hq. rewrite <- (length_fmap snd reference). split.
    + intros Hraise. unfold classify_images. rewrite (reshape_rect L _ Hrect). cbn.
      destruct (decide (reference = [])) as [->|Hne].
      * unfold np.reshape. by case_decide.
      * destruct Hraise as [|[Hqne HL]]; [done|]. unfold np.reshape.
        rewrite (length_concat_rect Lq) by done. rewrite decide_False; [done|].
        destruct queries; [done|]. cbn. nia.
    + intros Hok.
      assert (reference ≠ []) as Hne by tauto.
      assert (Forall (λ q, length q = L) queries) as Hq'.
      { destruct (decide (queries = [])) as [->|Hqne]; [constructor|].
        destruct (decide (Lq = L)) as [<-|HL]; [done|tauto]. }
      rewrite (classify_images_rect L); [|done|done|by apply reference_nonempty].
      destruct (gather_labels reference.*1 reference.*2 queries) as (preds & Hpreds & _);
        [by apply reference_nonempty|by rewrite !length_fmap|].
      by exists preds.
Qed.

Lemma classify_raises_witness :
  (∀ q, [(7%Z, [1; 2; 3])] = [] ∨ incompatible 3 q →
        classify_image q [[1; 2; 3]] [7%Z] = Raise ValueError)
  ∧ (∀ q, ¬ ([(7%Z, [1; 2; 3])] = [] ∨ incompatible 3 q) →
          ∃ label, classify_image q [[1; 2; 3]] [7%Z] = Ok label)
  ∧ (∀ Lq queries, Forall (λ q, length q = Lq) queries →
       ([(7%Z, [1; 2; 3])] = [] ∨ (queries ≠ [] ∧ Lq ≠ 3%nat) →
        classify_images 3 [[1; 2; 3]] [7%Z] queries 1 (length queries) = Raise ValueError)
       ∧ (¬ ([(7%Z, [1; 2; 3])] = [] ∨ (queries ≠ [] ∧ Lq ≠ 3%nat)) →
          ∃ predictions,
            classify_images 3 [[1; 2; 3]] [7%Z] queries 1 (length queries) = Ok predictions)).
Proof.
  apply (classify_raises 3 [(7%Z, [1; 2; 3])]). repeat constructor.
Defined.

(** C7 as stated fails on a query of length one: numpy broadcasts it against
    reference vectors of any length, and a label is returned. *)
Lemma classify_accepts_length_one_query :
  length [5] ≠ length [1; 2]
  ∧ classify_image [5] [[1; 2]; [6; 9]] [7; 8]%Z = Ok 8%Z.
Proof. split; [discriminate|reflexivity]. Qed.


(** C9, as the code has it: in the scenario the reference vector nearest to
    [(0, 0.4)] is [(0, 0)], at squared distance 0.16 against 0.36 for
    [(0, 1)], and the label is 0; the one nearest to [(5, 5.4)] is [(5, 5)],
    at 0.16 against 0.36 for [(5, 6)], and the label is 1.  Both strategies
    agree. *)
Theorem scenario_classification :
  (∃ DM, distances scenario_query1 scenario_vectors = Ok DM
         ∧ Forall2 Qeq DM [16 # 100; 36 # 100; 4616 # 100; 5636 # 100]
         ∧ np.argmin DM = Ok 0%nat)
  ∧ scenario_vectors !! 0%nat = Some [0; 0]
  ∧ classify_image scenario_query1 scenario_vectors scenario_labels = Ok 0%Z
  ∧ (∃ DM, distances scenario_query2 scenario_vectors = Ok DM
           ∧ Forall2 Qeq DM [5416 # 100; 4436 # 100; 16 # 100; 36 # 100]
           ∧ np.argmin DM = Ok 2%nat)
  ∧ scenario_vectors !! 2%nat = Some [5; 5]
  ∧ classify_image scenario_query2 scenario_vectors scenario_labels = Ok 1%Z
  ∧ classify_images 2 scenario_vectors scenario_labels
      [scenario_query1; scenario_query2] 4 2 = Ok [0; 1]%Z.
Proof.
  repeat split; try reflexivity.
  - eexists. split; [reflexivity|]. split; [|reflexivity].
    repeat constructor; reflexivity.
  - eexists. split; [reflexivity|]. split; [|reflexivity].
    repeat constructor; reflexivity.
Qed.

(** C9 as stated names [(0, 1)] as the vector nearest to [(0, 0.4)]: the scan
    stops at index 0, the vector [(0, 0)], and [(0, 1)] is strictly farther. *)
Lemma scenario_nearest_is_not_0_1 :
  (DM ← distances scenario_query1 scenario_vectors; np.argmin DM) = Ok 0%nat
  ∧ scenario_vectors !! 0%nat = Some [0; 0]
  ∧ scenario_vectors !! 1%nat = Some [0; 1]
  ∧ squared_distance scenario_query1 [0; 0] < squared_distance scenario_query1 [0; 1].
Proof. repeat split. Qed.

(** * The experiment runner *)

(** C8, as the code has it: on an empty schedule the comprehension of
    [accuracy_info] runs no iteration and returns the empty list, without
    raising and without consuming the generator. *)
Theorem accuracy_info_empty_schedule test_img test_labels train_data count_of_iters_v st :
  accuracy_info test_img test_labels train_data [] count_of_iters_v st = Ok ([], st).
Proof. reflexivity. Qed.

(** C8 as stated fails: an empty schedule yields a result, not an exception. *)
Lemma empty_schedule_returns :
  accuracy_info [[10; 11]] [1%Z] [[1; 10; 11]; [2; 20; 21]] [] [] example_state
  = Ok ([], example_state)
  ∧ ∀ e, accuracy_info [[10; 11]] [1%Z] [[1; 10; 11]; [2; 20; 21]] [] [] example_state
         ≠ Raise e.
Proof. split; [reflexivity|discriminate]. Qed.

(** ** Which exceptions the loop body can raise *)

Lemma no_zero_division_bind {A B} (m : result A) (f : A → result B) :
  no_zero_division m → (∀ a, no_zero_division (f a)) → no_zero_division (m ≫= f).
Proof.
  intros Hm Hf. destruct m as [a|e]; [apply Hf|].
  intros [= ->]. by apply Hm.
Qed.

Lemma no_zero_division_mapM {A B} (f : A → result B) l :
  (∀ x, no_zero_division (f x)) → no_zero_division (mapM f l).
Proof. intros Hf Hraise. apply mapM_Raise in Hraise as (x & _ & Hx). by apply (Hf x). Qed.

Lemma no_zero_division_getitem {A} (a : list A) i : no_zero_division (np.getitem a i).
Proof. unfold np.getitem. by destruct (a !! i). Qed.

Lemma no_zero_division_broadcast {A B} (f : A → A → B) a b :
  no_zero_division (np.broadcast f a b).
Proof.
  unfold np.broadcast. case_decide; [done|].
  by destruct a as [|x [|x' a]], b as [|y [|y' b]].
Qed.

Lemma no_zero_division_argmin a : no_zero_division (np.argmin a).
Proof. by destruct a. Qed.

Lemma no_zero_division_classify_image q train_img train_labels :
  no_zero_division (classify_image q train_img train_labels).
Proof.
  unfold classify_image. apply no_zero_division_bind.
  - unfold distances, subtract_rows. apply no_zero_division_bind; [|done].
    apply no_zero_division_mapM. intros r. apply no_zero_division_broadcast.
  - intros DM. apply no_zero_division_bind; [apply no_zero_division_argmin|].
    intros index. apply no_zero_division_getitem.
Qed.

Lemma no_zero_division_predicted_results test_img train_img train_labels :
  no_zero_division (predicted_results test_img train_img train_labels).
Proof. apply no_zero_division_mapM. intros q. apply no_zero_division_classify_image. Qed.

Lemma no_zero_division_success_count predicted test_labels :
  no_zero_division (success_count predicted test_labels).
Proof.
  unfold success_count. apply no_zero_division_bind; [|done].
  apply no_zero_division_broadcast.
Qed.

Lemma get_random_subset_unfold data new_size st :
  get_random_subset data new_size st =
  if decide (length data < new_size)%nat then Raise ValueError
  else
    let '(idx, st') := np.permutation (length data) st in
    match mapM (λ i, row ← np.getitem data i; np.getitem row 0) (take new_size idx) with
    | Ok column0 =>
        match mapM (λ i, row ← np.getitem data i; Ok (drop 1 row)) (take new_size idx) with
        | Ok images => Ok ((np.astype_int <$> column0, images), st')
        | Raise e => Raise e
        end
    | Raise e => Raise e
    end.
Proof.
  unfold get_random_subset, np.choice, mbind at 1 2 4, Rand_bind.
  case_decide; [done|].
  destruct (np.permutation (length data) st) as [idx st']. unfold lift.
  destruct (mapM _ (take new_size idx)) as [column0|e0]; [|done].
  by destruct (mapM _ (take new_size idx)) as [images|e1].
Qed.

Lemma get_random_subset_raises data new_size st e :
  get_random_subset data new_size st = Raise e → e = ValueError ∨ e = IndexError.
Proof.
  rewrite get_random_subset_unfold.
  case_decide; [intros [= <-]; by left|].
  destruct (np.permutation (length data) st) as [idx st'].
  destruct (mapM _ (take new_size idx)) as [column0|e0] eqn:Hc.
  - destruct (mapM (B := list Q) _ (take new_size idx)) as [images|e1] eqn:Hi; [done|].
    intros [= <-]. apply mapM_Raise in Hi as (i & _ & Hi). right.
    unfold np.getitem in Hi. destruct (data !! i); cbn in Hi; congruence.
  - intros [= <-]. apply mapM_Raise in Hc as (i & _ & Hi). right.
    unfold np.getitem in Hi. destruct (data !! i) as [row|]; cbn in Hi; [|congruence].
    destruct (row !! 0%nat); congruence.
Qed.

(** A pass of the loop either raises something other than
    [ZeroDivisionError] or leaves a numpy float in the accumulator. *)
Lemma iteration_outcome test_img test_labels train_data size total st :
  match iteration test_img test_labels train_data size total st with
  | Ok (total', _) => ∃ x, total' = NpFloat x
  | Raise e => e ≠ ZeroDivisionError
  end.
Proof.
  unfold iteration, mbind, Rand_bind.
  destruct (get_random_subset train_data size st) as [[[train_labels train_img] st']|e] eqn:Hs.
  - unfold lift.
    pose proof (no_zero_division_predicted_results test_img train_img train_labels) as Hp.
    destruct (predicted_results test_img train_img train_labels) as [predicted|e]; [|congruence].
    pose proof (no_zero_division_success_count predicted test_labels) as Hh.
    destruct (success_count predicted test_labels) as [hits|e]; [|congruence].
    cbn. destruct total; cbn; by eexists.
  - apply get_random_subset_raises in Hs as [->| ->]; done.
Qed.

Lemma for_range_outcome test_img test_labels train_data size n total st :
  match for_range (S n) (iteration test_img test_labels train_data size) total st with
  | Ok (total', _) => ∃ x, total' = NpFloat x
  | Raise e => e ≠ ZeroDivisionError
  end.
Proof.
  revert total st. induction n as [|n IH]; intros total st.
  - cbn. unfold mbind, Rand_bind.
    pose proof (iteration_outcome test_img test_labels train_data size total st) as H.
    by destruct (iteration _ _ _ _ total st) as [[total' st']|e].
  - change (for_range (S (S n)) ?b total st)
      with (Rand_bind _ _ (for_range (S n) b) (b total) st).
    unfold Rand_bind.
    pose proof (iteration_outcome test_img test_labels train_data size total st) as H.
    destruct (iteration _ _ _ _ total st) as [[total' st']|e]; [apply IH|done].
Qed.

(** C10: with [iterations_count = 0] the loop body never runs, the
    accumulator is still the Python integer [0], and the final division
    raises [ZeroDivisionError], whatever the test set and the training pool;
    with one iteration or more that exception cannot occur. *)
Theorem average_accuracy_zero_iterations test_img test_labels train_data size st :
  get_average_accuracy test_img test_labels train_data size 0 st = Raise ZeroDivisionError
  ∧ ∀ iterations_count,
      get_average_accuracy test_img test_labels train_data size iterations_count st
      = Raise ZeroDivisionError
      ↔ iterations_count = 0%nat.
Proof.
  split; [reflexivity|]. intros [|n]; [done|]. split; [|done].
  unfold get_average_accuracy, mbind, Rand_bind.
  pose proof (for_range_outcome test_img test_labels train_data size n (PyInt 0) st) as H.
  destruct (for_range (S n) _ (PyInt 0) st) as [[total st']|e].
  - by destruct H as [x ->].
  - congruence.
Qed.

(** * The sampler *)

(** ** The shuffle is a permutation *)

Lemma insert_cons_Permutation (l : list nat) i x y :
  l !! i = Some y → y :: <[i := x]> l ≡ₚ x :: l.
Proof.
  intros Hi. rewrite insert_take_drop by by eapply lookup_lt_Some.
  rewrite <- (take_drop_middle l i y Hi) at 3.
  rewrite <- !Permutation_middle. apply perm_swap.
Qed.

Lemma swap_Permutation x i j : np.swap x i j ≡ₚ x.
Proof.
  unfold np.swap.
  destruct (x !! i) as [a|] eqn:Hi; [|done].
  destruct (x !! j) as [b|] eqn:Hj; [|done].
  apply (Permutation_cons_inv (a := b)).
  rewrite insert_cons_Permutation.
  - by apply insert_cons_Permutation.
  - destruct (decide (i = j)) as [->|Hne].
    + apply list_lookup_insert_eq. by eapply lookup_lt_Some.
    + by rewrite list_lookup_insert_ne.
Qed.

Lemma shuffle_Permutation i : ∀ x st, (np.shuffle i x st).1 ≡ₚ x.
Proof.
  induction i as [|i IH]; intros x st; [done|].
  cbn. rewrite IH. apply swap_Permutation.
Qed.

Lemma permutation_Permutation n st : (np.permutation n st).1 ≡ₚ seq 0 n.
Proof. apply shuffle_Permutation. Qed.

(** The first [size] entries of a permutation of [range(a)]: what
    [np.random.choice] hands to the sampler. *)
Lemma take_permutation_indexes a size idx :
  idx ≡ₚ seq 0 a → (size ≤ a)%nat →
  length (take size idx) = size
  ∧ NoDup (take size idx)
  ∧ ∀ i, i ∈ take size idx → (i < a)%nat.
Proof.
  intros Hperm Hsize. split; [|split].
  - rewrite length_take, Hperm, length_seq. lia.
  - apply (sublist_NoDup _ idx); [|apply sublist_take].
    rewrite Hperm. apply NoDup_seq.
  - intros i Hi. apply elem_of_take in Hi as (k & Hk & _).
    apply list_elem_of_lookup_2 in Hk. rewrite Hperm in Hk.
    apply elem_of_seq in Hk. lia.
Qed.


(** ** The sampler on a sample not larger than the dataset *)

Lemma get_random_subset_ok L data n st :
  Forall (λ row, length row = S L) data →
  (n ≤ length data)%nat →
  ∃ labels images indexes st',
    get_random_subset data n st = Ok ((labels, images), st')
    ∧ length labels = n ∧ length images = n
    ∧ length indexes = n ∧ NoDup indexes
    ∧ (∀ i, i ∈ indexes → (i < length data)%nat)
    ∧ ∀ k, (k < n)%nat →
        ∃ i c0 vec,
          indexes !! k = Some i
          ∧ data !! i = Some (c0 :: vec)
          ∧ length vec = L
          ∧ labels !! k = Some (np.astype_int c0)
          ∧ images !! k = Some vec.
Proof.
  intros Hdata Hn. rewrite get_random_subset_unfold, decide_False by lia.
  pose proof (permutation_Permutation (length data) st) as Hperm.
  destruct (np.permutation (length data) st) as [idx st']. cbn in Hperm.
  destruct (take_permutation_indexes _ n idx Hperm Hn) as (Hlen & Hnodup & Hrange).
  assert (∀ i, i ∈ take n idx → ∃ c0 vec, data !! i = Some (c0 :: vec) ∧ length vec = L)
    as Hrow.
  { intros i Hi. destruct (lookup_lt_is_Some_2 data i (Hrange i Hi)) as [row Hi'].
    rewrite Forall_forall in Hdata. specialize (Hdata row (list_elem_of_lookup_2 _ _ _ Hi')).
    destruct row as [|c0 vec]; [done|]. exists c0, vec. split; [done|]. cbn in Hdata. lia. }
  rewrite (mapM_Ok_fmap _ (λ i, match data !! i with Some (c0 :: _) => c0 | _ => 0 end)).
  2:{ intros i Hi. destruct (Hrow i Hi) as (c0 & vec & Hi' & _).
      unfold np.getitem. by rewrite Hi'. }
  rewrite (mapM_Ok_fmap _ (λ i, match data !! i with Some row => drop 1 row | None => [] end)).
  2:{ intros i Hi. destruct (Hrow i Hi) as (c0 & vec & Hi' & _).
      unfold np.getitem. by rewrite Hi'. }
  eexists _, _, (take n idx), st'. split; [done|].
  rewrite !length_fmap. repeat split; try done.
  intros k Hk. destruct (lookup_lt_is_Some_2 (take n idx) k) as [i Hi]; [lia|].
  destruct (Hrow i (list_elem_of_lookup_2 _ _ _ Hi)) as (c0 & vec & Hi' & Hvec).
  exists i, c0, vec. rewrite !list_lookup_fmap, Hi. cbn. by rewrite Hi'.
Qed.







(** * The averaging protocol *)

Lemma count_true_zip_with_eqb predicted test_labels :
  length (filter (λ b, b = true) (zip_with Z.eqb predicted test_labels))
  = matching predicted test_labels.
Proof.
  unfold matching. revert test_labels.
  induction predicted as [|p predicted IH]; intros [|t test_labels]; try done.
  cbn [zip_with]. rewrite !filter_cons. cbn [fst snd].
  destruct (Z.eqb_spec p t) as [->|Hne].
  - rewrite decide_True, decide_True by done. cbn [length]. by rewrite IH.
  - rewrite decide_False, decide_False by done. by rewrite IH.
Qed.

Lemma success_count_matching predicted test_labels :
  length predicted = length test_labels →
  success_count predicted test_labels = Ok (Z.of_nat (matching predicted test_labels)).
Proof.
  intros Hlen. unfold success_count. rewrite broadcast_same_length by done. cbn.
  unfold np.count_true. by rewrite count_true_zip_with_eqb.
Qed.

Lemma matching_le predicted test_labels :
  (matching predicted test_labels ≤ length test_labels)%nat.
Proof.
  unfold matching. etrans; [apply length_filter|]. rewrite length_zip_with. lia.
Qed.

Lemma inject_nat_pos n : (0 < n)%nat → 0 < inject_Z (Z.of_nat n).
Proof. intros Hn. unfold Qlt. cbn. lia. Qed.

Lemma inject_nat_le n m : (n ≤ m)%nat → inject_Z (Z.of_nat n) <= inject_Z (Z.of_nat m).
Proof. intros Hn. unfold Qle. cbn. lia. Qed.

Lemma Qdiv_unit_interval x d : 0 <= x → x <= d → 0 < d → 0 <= x / d ∧ x / d <= 1.
Proof.
  intros H0 Hd Hpos. split.
  - apply Qle_shift_div_l; [done|]. lra.
  - apply Qle_shift_div_r; [done|]. lra.
Qed.

Lemma accuracy_unit_interval predicted test_labels :
  test_labels ≠ [] →
  0 <= accuracy predicted test_labels ∧ accuracy predicted test_labels <= 1.
Proof.
  intros Hne. unfold accuracy. apply Qdiv_unit_interval.
  - apply (inject_nat_le 0). lia.
  - apply inject_nat_le, matching_le.
  - apply inject_nat_pos. destruct test_labels; [done|cbn; lia].
Qed.

Lemma true_divide_count hits count :
  count ≠ 0%nat →
  np.true_divide hits count = np.Finite (inject_Z hits / inject_Z (Z.of_nat count)).
Proof. by destruct count. Qed.

Lemma represents_Qeq total q q' : q == q' → represents total q → represents total q'.
Proof.
  intros Heq. destruct total as [z|[t| |]]; cbn; [| |done..]; intros H; by rewrite H.
Qed.

Lemma represents_iadd total q a :
  represents total q → represents (py_iadd total (np.Finite a)) (q + a).
Proof. destruct total as [z|[t| |]]; cbn; [| |done..]; intros H; by rewrite H. Qed.

Lemma iadd_finite total q a :
  represents total q → ∃ t, py_iadd total (np.Finite a) = NpFloat (np.Finite t).
Proof.
  destruct total as [z|[t| |]]; cbn; intros H;
    [by eexists|by eexists|destruct H|destruct H].
Qed.

Lemma for_range_S {A} n (body : A → Rand A) acc st :
  for_range (S n) body acc st =
  match body acc st with
  | Ok (acc', st') => for_range n body acc' st'
  | Raise e => Raise e
  end.
Proof. reflexivity. Qed.

Lemma mapM_Rand_cons {A B} (f : A → Rand B) x l st :
  mapM f (x :: l) st =
  match f x st with
  | Ok (y, st1) =>
      match mapM f l st1 with
      | Ok (k, st2) => Ok (y :: k, st2)
      | Raise e => Raise e
      end
  | Raise e => Raise e
  end.
Proof.
  cbn. unfold mbind, Rand_bind. destruct (f x st) as [[y st1]|e]; [|done].
  by destruct (mapM f l st1) as [[k st2]|e].
Qed.

Lemma sum_unit_interval accs :
  Forall (λ a, 0 <= a ∧ a <= 1) accs →
  0 <= foldr Qplus 0 accs ∧ foldr Qplus 0 accs <= inject_Z (Z.of_nat (length accs)).
Proof.
  induction 1 as [|a accs [Ha0 Ha1] _ [IH0 IH1]]; cbn [foldr length].
  - split; [lra|]. by apply (inject_nat_le 0).
  - rewrite Nat2Z.inj_succ, <- Z.add_1_r, inject_Z_plus.
    change (inject_Z 1) with 1.
    generalize dependent (inject_Z (Z.of_nat (length accs))).
    generalize dependent (foldr Qplus 0 accs). intros s Hs0 n Hsn. split; lra.
Qed.

Section averaging.
Context (L : nat) (test_img : list (list Q)) (test_labels : list Z).
Context (train_data : list (list Q)).
Hypothesis Htrain : Forall (λ row, length row = S L) train_data.
Hypothesis Htest : Forall (λ q, length q = L) test_img.
Hypothesis Hlabels : length test_img = length test_labels.
Hypothesis Hqueries : test_img ≠ [].

Lemma repetition_accuracy_unit_interval size a :
  repetition_accuracy test_img test_labels train_data size a → 0 <= a ∧ a <= 1.
Proof.
  intros (? & ? & ? & ? & predicted & _ & _ & _ & _ & ->).
  apply accuracy_unit_interval. intros ->. by destruct test_img.
Qed.

Lemma iteration_ok size total st :
  (0 < size ≤ length train_data)%nat →
  ∃ a st',
    iteration test_img test_labels train_data size total st
    = Ok (py_iadd total (np.Finite a), st')
    ∧ repetition_accuracy test_img test_labels train_data size a.
Proof.
  intros [Hpos Hsize].
  destruct (get_random_subset_ok L train_data size st Htrain Hsize)
    as (train_labels & train_img & indexes & st' & Hrun & Hl & Hi & _ & _ & _ & Hrows).
  assert (Forall (λ r, length r = L) train_img) as Hrect.
  { apply Forall_lookup. intros k r Hk.
    destruct (Hrows k) as (? & ? & vec & _ & _ & Hvec & _ & Hk').
    - apply lookup_lt_Some in Hk. lia.
    - congruence. }
  assert (train_img ≠ []) as Hne by (intros ->; cbn in Hi; lia).
  destruct (gather_labels train_labels train_img test_img)
    as (predicted & Hpred & Hplen & _); [done|lia|].
  rewrite <- (predicted_results_rect L) in Hpred by done.
  exists (accuracy predicted test_labels), st'. split.
  - unfold iteration, mbind, Rand_bind. rewrite Hrun, Hpred. cbn.
    rewrite success_count_matching by lia. cbn.
    rewrite true_divide_count; [done|]. rewrite <- Hlabels. by destruct test_img.
  - by exists st, st', train_labels, train_img, predicted.
Qed.

Lemma for_range_ok size n :
  (0 < size ≤ length train_data)%nat →
  ∀ total q st, represents total q →
  ∃ accuracies total' st',
    for_range n (iteration test_img test_labels train_data size) total st = Ok (total', st')
    ∧ length accuracies = n
    ∧ Forall (repetition_accuracy test_img test_labels train_data size) accuracies
    ∧ represents total' (q + foldr Qplus 0 accuracies)
    ∧ (n ≠ 0%nat → ∃ t, total' = NpFloat (np.Finite t)).
Proof.
  intros Hsize. induction n as [|n IH]; intros total q st Hq.
  - exists [], total, st. repeat split; [done|..].
    + eapply represents_Qeq; [|done]. cbn. lra.
    + done.
  - destruct (iteration_ok size total st Hsize) as (a & st1 & Hbody & Ha).
    destruct (IH _ (q + a) st1 (represents_iadd _ _ a Hq))
      as (accs & total' & st' & Hloop & Hlen & Haccs & Htotal & Hfloat).
    exists (a :: accs), total', st'. rewrite for_range_S, Hbody.
    split; [done|]. split; [by rewrite <- Hlen|]. split; [by constructor|]. split.
    + eapply represents_Qeq; [|done]. cbn. lra.
    + intros _. destruct n as [|n]; [|by apply Hfloat].
      injection Hloop as <- _. by apply (iadd_finite _ q).
Qed.

Lemma get_average_accuracy_ok size iterations_count st :
  (0 < size ≤ length train_data)%nat → (1 ≤ iterations_count)%nat →
  ∃ m accuracies st',
    get_average_accuracy test_img test_labels train_data size iterations_count st
    = Ok (np.Finite m, st')
    ∧ length accuracies = iterations_count
    ∧ Forall (repetition_accuracy test_img test_labels train_data size) accuracies
    ∧ m == mean accuracies
    ∧ 0 <= m ∧ m <= 1.
Proof.
  intros Hsize Hiters.
  destruct (for_range_ok size iterations_count Hsize (PyInt 0) 0 st)
    as (accs & total & st' & Hloop & Hlen & Haccs & Htotal & Hfloat); [done|].
  destruct Hfloat as [t ->]; [lia|]. cbn in Htotal.
  exists (t / inject_Z (Z.of_nat iterations_count)), accs, st'.
  assert (t / inject_Z (Z.of_nat iterations_count) == mean accs) as Hmean.
  { unfold mean. rewrite Hlen, Htotal. by rewrite Qplus_0_l. }
  split; [|split; [done|split; [done|split; [done|]]]].
  - unfold get_average_accuracy, mbind, Rand_bind. rewrite Hloop. cbn.
    by destruct iterations_count; [lia|].
  - rewrite Hmean. unfold mean.
    destruct (sum_unit_interval accs) as [H0 H1].
    { eapply Forall_impl; [done|]. apply repetition_accuracy_unit_interval. }
    apply Qdiv_unit_interval; [done..|]. apply inject_nat_pos. lia.
Qed.






End averaging.


(** * Further properties of the sampler *)

Lemma mapM_first_raises {A B} (f : A → result B) x l e :
  f x = Raise e → mapM f (x :: l) = Raise e.
Proof. intros Hx. by rewrite mapM_cons, Hx. Qed.

(** The sampler reads the rows at the first [n] entries of the permutation
    drawn from the generator. *)
Lemma get_random_subset_reads L data n st :
  Forall (λ row, length row = S L) data →
  (n ≤ length data)%nat →
  ∃ idx st',
    idx ≡ₚ seq 0 (length data)
    ∧ get_random_subset data n st
      = Ok (((λ i, (split_row (nth i data [])).1) <$> take n idx,
             (λ i, (split_row (nth i data [])).2) <$> take n idx), st').
Proof.
  intros Hdata Hn. rewrite get_random_subset_unfold, decide_False by lia.
  pose proof (permutation_Permutation (length data) st) as Hperm.
  destruct (np.permutation (length data) st) as [idx st']. cbn in Hperm.
  exists idx, st'. split; [done|].
  destruct (take_permutation_indexes _ n idx Hperm Hn) as (_ & _ & Hrange).
  assert (∀ i, i ∈ take n idx → ∃ c0 vec, data !! i = Some (c0 :: vec)) as Hrow.
  { intros i Hi. destruct (lookup_lt_is_Some_2 data i (Hrange i Hi)) as [row Hi'].
    rewrite Forall_forall in Hdata. specialize (Hdata row (list_elem_of_lookup_2 _ _ _ Hi')).
    destruct row as [|c0 vec]; [done|]. by exists c0, vec. }
  rewrite (mapM_Ok_fmap _ (λ i, hd 0 (nth i data []))).
  2:{ intros i Hi. destruct (Hrow i Hi) as (c0 & vec & Hi').
      unfold np.getitem. by rewrite Hi', (nth_lookup_Some _ _ _ _ Hi'). }
  rewrite (mapM_Ok_fmap _ (λ i, drop 1 (nth i data []))).
  2:{ intros i Hi. destruct (Hrow i Hi) as (c0 & vec & Hi').
      unfold np.getitem. by rewrite Hi', (nth_lookup_Some _ _ _ _ Hi'). }
  by rewrite <- list_fmap_compose.
Qed.

(** X1: the sampler draws without replacement in the sense of multisets: the
    (label, vector) pairs it returns form a sub-multiset of the rows of the
    dataset, so that a row is returned at most as often as the dataset holds
    it; a sample of the full size is a rearrangement of the whole dataset. *)
Theorem get_random_subset_without_replacement L data n st :
  Forall (λ row, length row = S L) data →
  (n ≤ length data)%nat →
  ∃ labels images st',
    get_random_subset data n st = Ok ((labels, images), st')
    ∧ zip labels images ⊆+ split_row <$> data
    ∧ (n = length data → zip labels images ≡ₚ split_row <$> data).
Proof.
  intros Hdata Hn.
  destruct (get_random_subset_reads L data n st Hdata Hn) as (idx & st' & Hperm & Hrun).
  eexists _, _, st'. split; [exact Hrun|].
  assert (∀ l : list nat,
            zip ((λ i, (split_row (nth i data [])).1) <$> l)
                ((λ i, (split_row (nth i data [])).2) <$> l)
            = (λ i, split_row (nth i data [])) <$> l) as Hzip.
  { intros l. rewrite zip_with_fmap_l, zip_with_fmap_r, zip_with_diag.
    apply list_fmap_ext. intros _ i _. by destruct (split_row (nth i data [])). }
  rewrite Hzip.
  assert ((λ i, split_row (nth i data [])) <$> idx ≡ₚ split_row <$> data) as Hall.
  { rewrite Hperm. by rewrite fmap_seq_nth. }
  split.
  - rewrite <- Hall. apply sublist_submseteq, fmap_sublist, sublist_take.
  - intros ->. rewrite take_ge; [done|]. by rewrite Hperm, length_seq.
Qed.

Lemma get_random_subset_without_replacement_witness :
  ∃ labels images st',
    get_random_subset [[1; 10; 11]; [2; 20; 21]; [3; 30; 31]] 3 example_state
    = Ok ((labels, images), st')
    ∧ zip labels images ⊆+ split_row <$> [[1; 10; 11]; [2; 20; 21]; [3; 30; 31]]
    ∧ (3%nat = length [[1; 10; 11]; [2; 20; 21]; [3; 30; 31]] →
       zip labels images ≡ₚ split_row <$> [[1; 10; 11]; [2; 20; 21]; [3; 30; 31]]).
Proof.
  apply (get_random_subset_without_replacement 2
           [[1; 10; 11]; [2; 20; 21]; [3; 30; 31]] 3 example_state).
  - repeat constructor.
  - cbn. lia.
Defined.

(** X2: on a table whose rows have no column at all, not even the label
    column, a request for at least one row within the table raises
    [IndexError] at the read of column 0. *)
Theorem get_random_subset_no_label_column data n st :
  Forall (λ row, row = []) data →
  (0 < n ≤ length data)%nat →
  get_random_subset data n st = Raise IndexError.
Proof.
  intros Hdata [Hpos Hn]. rewrite get_random_subset_unfold, decide_False by lia.
  pose proof (permutation_Permutation (length data) st) as Hperm.
  destruct (np.permutation (length data) st) as [idx st']. cbn in Hperm.
  destruct (take_permutation_indexes _ n idx Hperm Hn) as (Hlen & _ & Hrange).
  destruct (take n idx) as [|i l] eqn:Htake; [cbn in Hlen; lia|].
  rewrite (mapM_first_raises _ _ _ IndexError); [done|].
  destruct (lookup_lt_is_Some_2 data i) as [row Hi]; [apply Hrange; by left|].
  rewrite Forall_forall in Hdata.
  rewrite (Hdata row (list_elem_of_lookup_2 _ _ _ Hi)) in Hi.
  unfold np.getitem. by rewrite Hi.
Qed.

Lemma get_random_subset_no_label_column_witness :
  get_random_subset [[]; []; []] 2 example_state = Raise IndexError.
Proof.
  apply (get_random_subset_no_label_column [[]; []; []] 2 example_state).
  - repeat constructor.
  - cbn. lia.
Defined.

(** * Further properties of the classifier *)
















Lemma mapM_ext_in {A B} (f g : A → result B) l :
  (∀ x, x ∈ l → f x = g x) → mapM f l = mapM g l.
Proof.
  induction l as [|x l IH]; intros Hfg; [done|].
  rewrite !mapM_cons, Hfg by left. rewrite IH; [done|].
  intros y Hy. apply Hfg. by right.
Qed.

(** X6: a query of length one is not rejected but broadcast: it is
    classified exactly as the constant vector of length [L] that repeats its
    only entry. *)
Theorem classify_image_scalar_query L x train_img train_labels :
  Forall (λ r, length r = L) train_img →
  classify_image [x] train_img train_labels
  = classify_image (replicate L x) train_img train_labels.
Proof.
  intros Hrect. unfold classify_image, distances, subtract_rows.
  rewrite (mapM_ext_in (np.broadcast Qminus [x]) (np.broadcast Qminus (replicate L x)));
    [done|].
  intros r Hr. rewrite Forall_forall in Hrect. specialize (Hrect r Hr).
  destruct (decide (L = 1%nat)) as [->|HL]; [done|].
  rewrite (broadcast_same_length _ (replicate L x)) by by rewrite length_replicate.
  rewrite zip_with_replicate_l by lia.
  unfold np.broadcast. rewrite decide_False; [done|]. cbn. lia.
Qed.

Lemma classify_image_scalar_query_witness :
  classify_image [5] [[1; 2]; [6; 9]] [7; 8]%Z
  = classify_image (replicate 2 5) [[1; 2]; [6; 9]] [7; 8]%Z.
Proof.
  apply (classify_image_scalar_query 2 5 [[1; 2]; [6; 9]] [7; 8]%Z).
  repeat constructor.
Defined.

(** * Further properties of the batched classifier and of the test cells *)

Lemma length_chunks n len flat : length (np.chunks n len flat) = n.
Proof. revert flat. induction n as [|n IH]; intros flat; cbn; [done|]. by rewrite IH. Qed.

Lemma chunks_rect n len : ∀ flat,
  length flat = (n * len)%nat → Forall (λ r, length r = len) (np.chunks n len flat).
Proof.
  induction n as [|n IH]; intros flat Hlen; cbn; constructor.
  - rewrite length_take. lia.
  - apply IH. rewrite length_drop. lia.
Qed.

(** The reduction of the distance matrix and the gathering of the labels, on
    arrays that already have the shape [reshape] gives them. *)
Lemma batched_reduction L Tr Te (train_labels : list Z) :
  Forall (λ r, length r = L) Tr → Forall (λ q, length q = L) Te → Tr ≠ [] →
  (indexes ← np.argmin_axis0 (length Te) (distance_matrix Te Tr);
   mapM (np.getitem train_labels) indexes)
  = mapM (np.getitem train_labels) (nearest Tr <$> Te).
Proof.
  intros HTr HTe Hne.
  pose proof (classify_images_rect L Tr train_labels Te HTr HTe Hne) as H.
  unfold classify_images in H. by rewrite !reshape_rect in H.
Qed.

Lemma classify_images_reshaped L train_img train_labels test_img N_train N_test :
  length (concat train_img) = (N_train * L)%nat →
  length (concat test_img) = (N_test * L)%nat →
  N_train ≠ 0%nat →
  classify_images L train_img train_labels test_img N_train N_test
  = mapM (np.getitem train_labels)
      (nearest (np.chunks N_train L (concat train_img))
         <$> np.chunks N_test L (concat test_img)).
Proof.
  intros Htrain Htest Hne. unfold classify_images, np.reshape.
  rewrite !decide_True by done. cbn.
  pose proof (chunks_rect N_train L _ Htrain) as HTr.
  pose proof (chunks_rect N_test L _ Htest) as HTe.
  pose proof (length_chunks N_train L (concat train_img)) as HlTr.
  pose proof (length_chunks N_test L (concat test_img)) as HlTe.
  set (Tr := np.chunks N_train L (concat train_img)) in *.
  set (Te := np.chunks N_test L (concat test_img)) in *.
  clearbody Tr Te. subst N_test.
  apply (batched_reduction L); [done..|]. intros ->. cbn in HlTr. lia.
Qed.

(** X7: [classify_images] looks at its two arrays only through [reshape]:
    when their total sizes fit [N_train] and [N_test] rows of [IMAGE_LENGTH]
    entries, whatever their own row lengths, the flattened data are cut anew
    into rows of [IMAGE_LENGTH] entries and the result is that of the
    streaming strategy on those rows. *)
Theorem classify_images_regroups L train_img train_labels test_img N_train N_test :
  length (concat train_img) = (N_train * L)%nat →
  length (concat test_img) = (N_test * L)%nat →
  N_train ≠ 0%nat →
  classify_images L train_img train_labels test_img N_train N_test
  = predicted_results (np.chunks N_test L (concat test_img))
      (np.chunks N_train L (concat train_img)) train_labels.
Proof.
  intros Htrain Htest Hne. rewrite classify_images_reshaped by done.
  rewrite (predicted_results_rect L); [done|by apply chunks_rect..|].
  destruct N_train; [done|]. cbn. discriminate.
Qed.

Lemma classify_images_regroups_witness :
  classify_images 2 [[0; 0; 3; 4]] [7; 8]%Z [[1]; [1]; [3]; [3]] 2 2
  = predicted_results
      (np.chunks 2 2 (concat [[1]; [1]; [3]; [3]]))
      (np.chunks 2 2 (concat [[0; 0; 3; 4]])) [7; 8]%Z.
Proof.
  apply (classify_images_regroups 2 [[0; 0; 3; 4]] [7; 8]%Z [[1]; [1]; [3]; [3]] 2 2).
  - reflexivity.
  - reflexivity.
  - discriminate.
Defined.

(** X8: [classify_images] raises [ValueError] exactly when the train array
    does not hold [N_train * IMAGE_LENGTH] entries, or the test array does
    not hold [N_test * IMAGE_LENGTH] entries, or [N_train] is zero. *)
Theorem classify_images_ValueError L train_img train_labels test_img N_train N_test :
  classify_images L train_img train_labels test_img N_train N_test = Raise ValueError
  ↔ length (concat train_img) ≠ (N_train * L)%nat
    ∨ length (concat test_img) ≠ (N_test * L)%nat
    ∨ N_train = 0%nat.
Proof.
  destruct (decide (length (concat train_img) = (N_train * L)%nat)) as [Htrain|Htrain].
  2:{ split; [by left|]. intros _. unfold classify_images, np.reshape.
      by destruct (decide (length (concat train_img) = _)). }
  destruct (decide (length (concat test_img) = (N_test * L)%nat)) as [Htest|Htest].
  2:{ split; [by right; left|]. intros _. unfold classify_images, np.reshape.
      destruct (decide (length (concat train_img) = _)); [|done].
      by destruct (decide (length (concat test_img) = _)). }
  destruct (decide (N_train = 0%nat)) as [->|Hne].
  { split; [by right; right|]. intros _. unfold classify_images, np.reshape.
    destruct (decide (length (concat train_img) = _)); [|done].
    by destruct (decide (length (concat test_img) = _)). }
  split; [|tauto]. rewrite classify_images_reshaped by done. intros Hraise.
  apply mapM_Raise in Hraise as (i & _ & Hi). unfold np.getitem in Hi.
  by destruct (train_labels !! i).
Qed.

Lemma matching_cons p predicted t test_labels :
  matching (p :: predicted) (t :: test_labels)
  = ((if decide (p = t) then 1 else 0) + matching predicted test_labels)%nat.
Proof.
  unfold matching. cbn [zip_with]. rewrite filter_cons. cbn [fst snd].
  by destruct (decide (p = t)).
Qed.

Lemma matching_nil_r predicted : matching predicted [] = 0%nat.
Proof. by destruct predicted. Qed.

Lemma gather_labels_default (train_labels : list Z) train_img test_img :
  train_img ≠ [] → length train_labels = length train_img →
  mapM (np.getitem train_labels) (nearest train_img <$> test_img)
  = Ok ((λ q, default 0%Z (train_labels !! nearest train_img q)) <$> test_img).
Proof.
  intros Hne Hlen.
  change ((λ q, default 0%Z (train_labels !! nearest train_img q)) <$> test_img)
    with (((λ i, default 0%Z (train_labels !! i)) ∘ nearest train_img) <$> test_img).
  rewrite list_fmap_compose. apply mapM_Ok_fmap. intros i Hi.
  apply list_elem_of_fmap in Hi as (q & -> & _). unfold np.getitem.
  destruct (lookup_lt_is_Some_2 train_labels (nearest train_img q)) as [z ->]; [|done].
  rewrite Hlen. by apply nearest_lt.
Qed.

(** The label that the reference set gives to query [q]. *)
Lemma classify_images_single L (reference : list (Z * list Q)) q :
  reference ≠ [] →
  Forall (λ p, length p.2 = L) reference →
  length q = L →
  classify_images L reference.*2 reference.*1 [q] (length reference) 1
  = Ok [default 0%Z (reference.*1 !! nearest reference.*2 q)].
Proof.
  intros Hne Href Hq. rewrite <- (length_fmap snd reference).
  rewrite (classify_images_rect L _ _ [q]);
    [|by apply reference_rect|by repeat constructor|by apply reference_nonempty].
  cbn. unfold np.getitem.
  destruct (lookup_lt_is_Some_2 reference.*1 (nearest reference.*2 q)) as [z ->]; [|done].
  rewrite length_fmap, <- (length_fmap snd). by apply nearest_lt, reference_nonempty.
Qed.

Lemma batched_success_count_matching L (reference : list (Z * list Q)) test_img :
  reference ≠ [] →
  Forall (λ p, length p.2 = L) reference →
  Forall (λ q, length q = L) test_img →
  ∀ test_labels count,
    batched.success_count L reference.*2 reference.*1 (length reference)
      (zip test_labels test_img) count
    = Ok (count
          + Z.of_nat
              (matching
                 ((λ q, default 0%Z (reference.*1 !! nearest reference.*2 q)) <$> test_img)
                 test_labels))%Z.
Proof.
  intros Hne Href. induction 1 as [|q test_img Hq _ IH]; intros [|label test_labels] count.
  - cbn. f_equal. lia.
  - cbn. f_equal. lia.
  - rewrite matching_nil_r. cbn. f_equal. lia.
  - cbn [zip_with batched.success_count]. rewrite classify_images_single by done.
    cbn [mbind result_bind np.getitem lookup list_lookup]. rewrite IH, fmap_cons, matching_cons.
    f_equal. case_decide; lia.
Qed.

(** X9: the loop of the batched notebook, which sends the test vectors
    through [classify_images] one at a time, counts exactly the predictions
    of a single call on the whole batch that agree with the test labels. *)
Theorem batched_loop_counts_batch L (reference : list (Z * list Q)) test_img test_labels :
  reference ≠ [] →
  Forall (λ p, length p.2 = L) reference →
  Forall (λ q, length q = L) test_img →
  ∃ predictions,
    classify_images L reference.*2 reference.*1 test_img
      (length reference) (length test_img) = Ok predictions
    ∧ batched.success_count L reference.*2 reference.*1 (length reference)
        (zip test_labels test_img) 0
      = Ok (Z.of_nat (matching predictions test_labels)).
Proof.
  intros Hne Href Htest.
  exists ((λ q, default 0%Z (reference.*1 !! nearest reference.*2 q)) <$> test_img).
  split.
  - rewrite <- (length_fmap snd reference).
    rewrite (classify_images_rect L);
      [|by apply reference_rect|done|by apply reference_nonempty].
    apply gather_labels_default; [by apply reference_nonempty|by rewrite !length_fmap].
  - by rewrite (batched_success_count_matching L).
Qed.

Lemma batched_loop_counts_batch_witness :
  ∃ predictions,
    classify_images 2 [[0; 0]; [3; 4]] [7; 8]%Z [[1; 1]; [3; 3]] 2 2 = Ok predictions
    ∧ batched.success_count 2 [[0; 0]; [3; 4]] [7; 8]%Z 2
        (zip [7; 7]%Z [[1; 1]; [3; 3]]) 0
      = Ok (Z.of_nat (matching predictions [7; 7]%Z)).
Proof.
  apply (batched_loop_counts_batch 2 [(7%Z, [0; 0]); (8%Z, [3; 4])]
           [[1; 1]; [3; 3]] [7; 7]%Z).
  - discriminate.
  - repeat constructor.
  - repeat constructor.
Defined.

(** X10: on the same selections, with as many test labels as test vectors
    and the test size equal to their number, the test cells of the two
    notebooks report the same accuracy, a value between 0 and 1. *)
Theorem notebooks_report_same_accuracy L (reference : list (Z * list Q))
    test_img test_labels :
  reference ≠ [] →
  Forall (λ p, length p.2 = L) reference →
  Forall (λ q, length q = L) test_img →
  length test_labels = length test_img →
  test_img ≠ [] →
  ∃ a,
    batched.accuracy L reference.*2 reference.*1 test_img test_labels
      (length reference) (length test_img) = Ok (np.Finite a)
    ∧ streaming.accuracy test_img test_labels reference.*2 reference.*1
        (length test_img) = Ok (np.Finite a)
    ∧ 0 <= a ∧ a <= 1.
Proof.
  intros Hne Href Htest Hlen Hqueries.
  set (predictions :=
         (λ q, default 0%Z (reference.*1 !! nearest reference.*2 q)) <$> test_img).
  exists (accuracy predictions test_labels).
  assert (length test_img ≠ 0%nat) as Hcount by by destruct test_img.
  split; [|split].
  - unfold batched.accuracy. rewrite (batched_success_count_matching L) by done.
    cbn. rewrite decide_False by done. unfold accuracy. by rewrite Z.add_0_l, Hlen.
  - unfold streaming.accuracy.
    rewrite (predicted_results_rect L);
      [|by apply reference_rect|done|by apply reference_nonempty].
    rewrite gather_labels_default;
      [|by apply reference_nonempty|by rewrite !length_fmap].
    cbn. fold predictions.
    rewrite success_count_matching by (unfold predictions; rewrite length_fmap; lia).
    cbn. rewrite true_divide_count by done. unfold accuracy. by rewrite Hlen.
  - apply accuracy_unit_interval. intros ->. by destruct test_img.
Qed.

Lemma notebooks_report_same_accuracy_witness :
  ∃ a,
    batched.accuracy 2 [[0; 0]; [3; 4]] [7; 8]%Z [[1; 1]; [3; 3]] [7; 7]%Z 2 2
    = Ok (np.Finite a)
    ∧ streaming.accuracy [[1; 1]; [3; 3]] [7; 7]%Z [[0; 0]; [3; 4]] [7; 8]%Z 2
      = Ok (np.Finite a)
    ∧ 0 <= a ∧ a <= 1.
Proof.
  apply (notebooks_report_same_accuracy 2 [(7%Z, [0; 0]); (8%Z, [3; 4])]
           [[1; 1]; [3; 3]] [7; 7]%Z).
  - discriminate.
  - repeat constructor.
  - repeat constructor.
  - reflexivity.
  - discriminate.
Defined.

Lemma no_zero_division_classify_images L train_img train_labels test_img N_train N_test :
  no_zero_division (classify_images L train_img train_labels test_img N_train N_test).
Proof.
  unfold classify_images.
  apply no_zero_division_bind; [unfold np.reshape; by case_decide|]. intros Tr.
  apply no_zero_division_bind; [unfold np.reshape; by case_decide|]. intros Te.
  apply no_zero_division_bind.
  - unfold np.argmin_axis0. destruct (distance_matrix Te Tr); [done|].
    apply no_zero_division_mapM. intros j. apply no_zero_division_argmin.
  - intros indexes. apply no_zero_division_mapM. intros i. apply no_zero_division_getitem.
Qed.

Lemma no_zero_division_batched_success_count L train_img train_labels train_N pairs :
  ∀ count,
    no_zero_division (batched.success_count L train_img train_labels train_N pairs count).
Proof.
  induction pairs as [|[label test] pairs IH]; intros count; [done|].
  cbn [batched.success_count].
  apply no_zero_division_bind; [apply no_zero_division_classify_images|]. intros res.
  apply no_zero_division_bind; [apply no_zero_division_getitem|]. intros res0. apply IH.
Qed.

(** X11: the two test cells differ on a test size of zero.  The batched
    notebook divides Python integers: its accuracy raises
    [ZeroDivisionError] exactly when [test_N] is zero and the counting loop
    has completed.  The streaming notebook divides a numpy integer and never
    raises [ZeroDivisionError]. *)
Theorem test_cells_zero_division L train_img train_labels test_img test_labels
    train_N test_N test_size :
  (batched.accuracy L train_img train_labels test_img test_labels train_N test_N
   = Raise ZeroDivisionError
   ↔ test_N = 0%nat
     ∧ ∃ count, batched.success_count L train_img train_labels train_N
                  (zip test_labels test_img) 0 = Ok count)
  ∧ streaming.accuracy test_img test_labels train_img train_labels test_size
    ≠ Raise ZeroDivisionError.
Proof.
  split.
  - unfold batched.accuracy.
    pose proof (no_zero_division_batched_success_count L train_img train_labels train_N
                  (zip test_labels test_img) 0%Z) as Hloop.
    destruct (batched.success_count _ _ _ _ _ _) as [count|e]; cbn.
    + case_decide as Hn; split.
      * intros _. split; [done|]. by exists count.
      * done.
      * done.
      * by intros [? _].
    + split; [intros [= ->]; by destruct Hloop|]. by intros [_ [count ?]].
  - unfold streaming.accuracy. apply no_zero_division_bind.
    + apply no_zero_division_predicted_results.
    + intros predicted. apply no_zero_division_bind; [|done].
      apply no_zero_division_success_count.
Qed.

(** * Further properties of the experiment runner *)

Lemma mapM_Rand_length {A B} (f : A → Rand B) l : ∀ st k st',
  mapM f l st = Ok (k, st') → length k = length l.
Proof.
  induction l as [|x l IH]; intros st k st'.
  - by intros [= <- _].
  - rewrite mapM_Rand_cons. destruct (f x st) as [[y st1]|e]; [|done].
    destruct (mapM f l st1) as [[k' st2]|e] eqn:Hl; [|done].
    intros [= <- _]. cbn. by rewrite (IH _ _ _ Hl).
Qed.

(** X12: the schedule is the [zip] of the two lists: when they differ in
    length the entries of the longer one beyond the length of the shorter
    are never run, and a run that returns yields as many points as the
    shorter list has entries. *)
Theorem accuracy_info_truncates test_img test_labels train_data
    size_of_subset_v count_of_iters_v st :
  accuracy_info test_img test_labels train_data size_of_subset_v count_of_iters_v st
  = accuracy_info test_img test_labels train_data
      (take (length count_of_iters_v) size_of_subset_v)
      (take (length size_of_subset_v) count_of_iters_v) st
  ∧ ∀ points st',
      accuracy_info test_img test_labels train_data size_of_subset_v count_of_iters_v st
      = Ok (points, st') →
      length points = (length size_of_subset_v `min` length count_of_iters_v)%nat.
Proof.
  unfold accuracy_info. split.
  - by rewrite zip_with_take_l', zip_with_take_r' by (rewrite ?length_take; lia).
  - intros points st' Hrun. apply mapM_Rand_length in Hrun.
    by rewrite Hrun, length_zip_with.
Qed.

Section runner.
Context (L : nat) (test_img : list (list Q)) (test_labels : list Z).
Context (train_data : list (list Q)).
Hypothesis Htrain : Forall (λ row, length row = S L) train_data.
Hypothesis Htest : Forall (λ q, length q = L) test_img.
Hypothesis Hlabels : length test_img = length test_labels.
Hypothesis Hqueries : test_img ≠ [].

Lemma get_average_accuracy_ValueError size iterations_count st :
  (1 ≤ iterations_count)%nat → ¬ (0 < size ≤ length train_data)%nat →
  get_average_accuracy test_img test_labels train_data size iterations_count st
  = Raise ValueError.
Proof.
  intros Hiters Hsize. destruct iterations_count as [|n]; [lia|].
  unfold get_average_accuracy, mbind at 1, Rand_bind. rewrite for_range_S.
  unfold iteration, mbind at 1, Rand_bind.
  destruct (decide (length train_data < size)%nat) as [Hbig|Hsmall].
  - by rewrite get_random_subset_unfold, decide_True.
  - assert (size = 0%nat) as -> by lia.
    destruct (get_random_subset_ok L train_data 0 st Htrain)
      as (train_labels & train_img & ? & st' & -> & Hl & Hi & _); [lia|].
    destruct train_labels, train_img; try done.
    destruct test_img as [|q queries]; [done|].
    unfold mbind at 1, Rand_bind. by rewrite predicted_results_empty_reference.
Qed.

Lemma get_average_accuracy_returns size iterations_count st :
  valid_entry (length train_data) (size, iterations_count) →
  ∃ x st', get_average_accuracy test_img test_labels train_data size iterations_count st
           = Ok (x, st').
Proof.
  intros [Hsize Hiters].
  destruct (get_average_accuracy_ok L test_img test_labels train_data
              Htrain Htest Hlabels Hqueries size iterations_count st Hsize Hiters)
    as (m & ? & st' & -> & _).
  by eexists _, _.
Qed.

(** X13: under the data model (rectangular tables, a non-empty query set
    with one label per query) a run of the experiment returns exactly when
    every entry of the schedule asks for at least one repetition and for a
    size in [(0, |train_data|]]. *)
Theorem accuracy_info_returns_iff (schedule : list (nat * nat)) st :
  (∃ points st',
     accuracy_info test_img test_labels train_data schedule.*1 schedule.*2 st
     = Ok (points, st'))
  ↔ Forall (valid_entry (length train_data)) schedule.
Proof.
  unfold accuracy_info. rewrite zip_fst_snd. revert st.
  induction schedule as [|[size iters] schedule IH]; intros st.
  - split; [by constructor|]. intros _. by exists [], st.
  - split.
    + intros (points & st' & Hrun). rewrite mapM_Rand_cons in Hrun.
      destruct (decide (valid_entry (length train_data) (size, iters))) as [Hvalid|Hinvalid].
      * destruct (get_average_accuracy_returns size iters st Hvalid) as (x & st1 & Hentry).
        rewrite Hentry in Hrun.
        destruct (mapM (M := Rand) _ schedule st1) as [[rest st2]|e] eqn:Hrest; [|done].
        constructor; [done|]. apply (IH st1). by exists rest, st2.
      * destruct iters as [|n]; [done|].
        rewrite get_average_accuracy_ValueError in Hrun; [done|lia|].
        intros Hsize. apply Hinvalid. split; [done|cbn; lia].
    + intros Hvalid. apply Forall_cons in Hvalid as [Hentry Hrest].
      destruct (get_average_accuracy_returns size iters st Hentry) as (x & st1 & Hx).
      apply (IH st1) in Hrest as (rest & st' & Hrest).
      exists (x :: rest), st'. by rewrite mapM_Rand_cons, Hx, Hrest.
Qed.

(** X14: the run fails fast at the first entry it cannot serve, and the kind
    of exception tells why: [ZeroDivisionError] when that entry asks for no
    repetition, [ValueError] when its size is zero or exceeds the training
    pool.  The entries after it are not looked at. *)
Theorem accuracy_info_first_invalid_entry (served : list (nat * nat)) size iters
    (rest : list (nat * nat)) st :
  Forall (valid_entry (length train_data)) served →
  ¬ valid_entry (length train_data) (size, iters) →
  accuracy_info test_img test_labels train_data
    (served ++ (size, iters) :: rest).*1 (served ++ (size, iters) :: rest).*2 st
  = Raise (if decide (iters = 0%nat) then ZeroDivisionError else ValueError).
Proof.
  unfold accuracy_info. rewrite zip_fst_snd. intros Hserved Hinvalid. revert st.
  induction Hserved as [|[size' iters'] served Hentry _ IH]; intros st.
  - cbn [app]. rewrite mapM_Rand_cons. destruct iters as [|n]; [done|].
    rewrite get_average_accuracy_ValueError; [done|lia|].
    intros Hsize. apply Hinvalid. split; [done|cbn; lia].
  - cbn [app]. rewrite mapM_Rand_cons.
    destruct (get_average_accuracy_returns size' iters' st Hentry) as (x & st1 & ->).
    by rewrite IH.
Qed.

End runner.

Lemma accuracy_info_returns_iff_witness :
  (∃ points st',
     accuracy_info [[10; 11]; [40; 40]] [1; 3]%Z
       [[1; 10; 11]; [2; 20; 21]; [3; 30; 31]; [4; 40; 41]]
       [2; 4]%nat [5; 1]%nat example_state
     = Ok (points, st'))
  ↔ Forall (valid_entry 4) [(2, 5); (4, 1)]%nat.
Proof.
  apply (accuracy_info_returns_iff 2 [[10; 11]; [40; 40]] [1; 3]%Z
           [[1; 10; 11]; [2; 20; 21]; [3; 30; 31]; [4; 40; 41]]
           ltac:(repeat constructor) ltac:(repeat constructor) eq_refl
           ltac:(discriminate) [(2, 5); (4, 1)]%nat example_state).
Defined.

Lemma accuracy_info_first_invalid_entry_witness :
  accuracy_info [[10; 11]; [40; 40]] [1; 3]%Z
    [[1; 10; 11]; [2; 20; 21]; [3; 30; 31]; [4; 40; 41]]
    [2; 9; 1]%nat [5; 2; 0]%nat example_state
  = Raise ValueError.
Proof.
  apply (accuracy_info_first_invalid_entry 2 [[10; 11]; [40; 40]] [1; 3]%Z
           [[1; 10; 11]; [2; 20; 21]; [3; 30; 31]; [4; 40; 41]]
           ltac:(repeat constructor) ltac:(repeat constructor) eq_refl
           ltac:(discriminate) [(2, 5)]%nat 9%nat 2%nat [(1, 0)]%nat example_state).
  - repeat constructor; cbn; lia.
  - intros [Hsize _]. cbn in Hsize. lia.
Defined.

(** * Splitting a batch *)

Lemma mapM_app {A B} (f : A → result B) l1 l2 :
  mapM f (l1 ++ l2) = k1 ← mapM f l1; k2 ← mapM f l2; Ok (k1 ++ k2).
Proof.
  induction l1 as [|x l1 IH].
  - cbn. by destruct (mapM f l2).
  - cbn [app]. rewrite !mapM_cons, IH. destruct (f x) as [y|e]; [|done]. cbn.
    destruct (mapM f l1) as [k1|e]; [|done]. cbn.
    by destruct (mapM f l2).
Qed.

(** X15: the memory trade-off of the batched notebook is sound: on a
    non-empty reference set, classifying a batch in one call gives the
    predictions of its first part followed by those of the rest, each
    classified in a call of its own, and fails when one of these calls
    fails. *)
Theorem classify_images_split L train_img train_labels batch1 batch2 :
  train_img ≠ [] →
  Forall (λ r, length r = L) train_img →
  Forall (λ q, length q = L) batch1 →
  Forall (λ q, length q = L) batch2 →
  classify_images L train_img train_labels (batch1 ++ batch2)
    (length train_img) (length (batch1 ++ batch2))
  = (predictions1 ← classify_images L train_img train_labels batch1
                      (length train_img) (length batch1);
     predictions2 ← classify_images L train_img train_labels batch2
                      (length train_img) (length batch2);
     Ok (predictions1 ++ predictions2)).
Proof.
  intros Hne Htrain H1 H2.
  rewrite !(classify_images_rect L) by (done || by apply Forall_app).
  by rewrite fmap_app, mapM_app.
Qed.

Lemma classify_images_split_witness :
  classify_images 2 [[0; 0]; [3; 4]] [7; 8]%Z ([[1; 1]] ++ [[3; 3]; [0; 1]]) 2 3
  = (predictions1 ← classify_images 2 [[0; 0]; [3; 4]] [7; 8]%Z [[1; 1]] 2 1;
     predictions2 ← classify_images 2 [[0; 0]; [3; 4]] [7; 8]%Z [[3; 3]; [0; 1]] 2 2;
     Ok (predictions1 ++ predictions2)).
Proof.
  apply (classify_images_split 2 [[0; 0]; [3; 4]] [7; 8]%Z [[1; 1]] [[3; 3]; [0; 1]]).
  - discriminate.
  - repeat constructor.
  - repeat constructor.
  - repeat constructor.
Defined.
